(** * Spaceship navigation: a shallow embedding of [spaceShip/space_ship.py]

    The Python class [SpaceshipNavigation] is a single mutable object whose
    methods either update it and return a flag, or only read it.  Each
    method becomes a function from the object before the call to the
    returned value paired with the object after the call.

    Python's [float] is kept abstract behind the interface [Number], which
    lists exactly the operations the class uses.  Two instances are given:

    - [IEEE], binary64 floating point: what the interpreter computes.  The
      methods run on it inside Rocq, and statements about the program are
      made on it;
    - [Real], the real numbers of the specification's data model: exact
      arithmetic, with no rounding, no overflow, no underflow and no
      not-a-number.  A statement proved on it describes the design; it
      describes the program only where rounding cannot make a difference.

    Properties that depend only on the control flow of the methods are
    proved once, for every instance, binary64 included. *)

From Stdlib Require Import Floats.
From Stdlib Require Import String ZArith List Bool Lia.
From Stdlib Require Import Reals Lra.
Import ListNotations.

(** ** The numeric interface *)

Declare Scope py_scope.
Delimit Scope py_scope with py.

Class Number (F : Type) : Type := {
  of_Z  : Z -> F;          (* integer literals: 0, 2.0, 100.0, 1000.0, ... *)
  fadd  : F -> F -> F;
  fsub  : F -> F -> F;
  fmul  : F -> F -> F;
  fdiv  : F -> F -> F;
  fsqrt : F -> F;          (* math.sqrt *)
  fabs  : F -> F;          (* abs *)
  flt   : F -> F -> bool;  (* a < b *)
  fle   : F -> F -> bool;  (* a <= b *)
  feq   : F -> F -> bool   (* a == b *)
}.

Notation "a + b" := (fadd a b) : py_scope.
Notation "a - b" := (fsub a b) : py_scope.
Notation "a * b" := (fmul a b) : py_scope.
Notation "a / b" := (fdiv a b) : py_scope.
Notation "a <? b" := (flt a b) (at level 70) : py_scope.
Notation "a >? b" := (flt b a) (at level 70) : py_scope.
Notation "a <=? b" := (fle a b) (at level 70) : py_scope.
Notation "a =? b" := (feq a b) (at level 70) : py_scope.
Notation "# n" := (of_Z n%Z) (at level 1, n at level 0, format "# n") : py_scope.

(** ** The object *)

Inductive NavigationMode : Type := MANUAL | AUTOPILOT | EMERGENCY.

Definition NavigationMode_value (m : NavigationMode) : string :=
  match m with
  | MANUAL => "manual"
  | AUTOPILOT => "autopilot"
  | EMERGENCY => "emergency"
  end.

Definition NavigationMode_eqb (a b : NavigationMode) : bool :=
  match a, b with
  | MANUAL, MANUAL | AUTOPILOT, AUTOPILOT | EMERGENCY, EMERGENCY => true
  | _, _ => false
  end.

Section Model.

Context {F : Type} {num : Number F}.
Local Open Scope py_scope.

Definition point : Type := (F * F * F)%type.

(** The attributes of a [SpaceshipNavigation] instance, in the order
    [__init__] assigns them. *)
Record SpaceshipNavigation : Type := mkShip {
  x : F;
  y : F;
  z : F;
  velocity_x : F;
  velocity_y : F;
  velocity_z : F;
  fuel_level : F;
  max_fuel : F;
  fuel_consumption_rate : F;
  max_speed : F;
  navigation_mode : NavigationMode;
  is_engine_active : bool;
  navigation_locked : bool;
  waypoints : list point;
  current_waypoint_index : nat;
  position_history : list point;
  max_history_size : nat
}.

Definition init (initial_x initial_y initial_z : F) : SpaceshipNavigation :=
  {| x := initial_x; y := initial_y; z := initial_z;
     velocity_x := #0; velocity_y := #0; velocity_z := #0;
     fuel_level := #1000;
     max_fuel := #1000;
     fuel_consumption_rate := #1;
     max_speed := #100;
     navigation_mode := MANUAL;
     is_engine_active := false;
     navigation_locked := false;
     waypoints := [];
     current_waypoint_index := 0;
     position_history := [(initial_x, initial_y, initial_z)];
     max_history_size := 100 |}.

(** Attribute assignments.  Each rebuilds the record with the named
    attributes replaced and every other attribute kept. *)

Definition assign_position (s : SpaceshipNavigation) (a b c : F) :=
  mkShip a b c (velocity_x s) (velocity_y s) (velocity_z s)
    (fuel_level s) (max_fuel s) (fuel_consumption_rate s) (max_speed s)
    (navigation_mode s) (is_engine_active s) (navigation_locked s)
    (waypoints s) (current_waypoint_index s)
    (position_history s) (max_history_size s).

Definition assign_velocity (s : SpaceshipNavigation) (a b c : F) :=
  mkShip (x s) (y s) (z s) a b c
    (fuel_level s) (max_fuel s) (fuel_consumption_rate s) (max_speed s)
    (navigation_mode s) (is_engine_active s) (navigation_locked s)
    (waypoints s) (current_waypoint_index s)
    (position_history s) (max_history_size s).

Definition assign_fuel_level (s : SpaceshipNavigation) (f : F) :=
  mkShip (x s) (y s) (z s) (velocity_x s) (velocity_y s) (velocity_z s)
    f (max_fuel s) (fuel_consumption_rate s) (max_speed s)
    (navigation_mode s) (is_engine_active s) (navigation_locked s)
    (waypoints s) (current_waypoint_index s)
    (position_history s) (max_history_size s).

Definition assign_navigation_mode (s : SpaceshipNavigation) (m : NavigationMode) :=
  mkShip (x s) (y s) (z s) (velocity_x s) (velocity_y s) (velocity_z s)
    (fuel_level s) (max_fuel s) (fuel_consumption_rate s) (max_speed s)
    m (is_engine_active s) (navigation_locked s)
    (waypoints s) (current_waypoint_index s)
    (position_history s) (max_history_size s).

Definition assign_navigation_locked (s : SpaceshipNavigation) (b : bool) :=
  mkShip (x s) (y s) (z s) (velocity_x s) (velocity_y s) (velocity_z s)
    (fuel_level s) (max_fuel s) (fuel_consumption_rate s) (max_speed s)
    (navigation_mode s) (is_engine_active s) b
    (waypoints s) (current_waypoint_index s)
    (position_history s) (max_history_size s).

Definition assign_waypoints (s : SpaceshipNavigation) (w : list point) :=
  mkShip (x s) (y s) (z s) (velocity_x s) (velocity_y s) (velocity_z s)
    (fuel_level s) (max_fuel s) (fuel_consumption_rate s) (max_speed s)
    (navigation_mode s) (is_engine_active s) (navigation_locked s)
    w (current_waypoint_index s)
    (position_history s) (max_history_size s).

Definition assign_current_waypoint_index (s : SpaceshipNavigation) (i : nat) :=
  mkShip (x s) (y s) (z s) (velocity_x s) (velocity_y s) (velocity_z s)
    (fuel_level s) (max_fuel s) (fuel_consumption_rate s) (max_speed s)
    (navigation_mode s) (is_engine_active s) (navigation_locked s)
    (waypoints s) i
    (position_history s) (max_history_size s).

Definition assign_position_history (s : SpaceshipNavigation) (h : list point) :=
  mkShip (x s) (y s) (z s) (velocity_x s) (velocity_y s) (velocity_z s)
    (fuel_level s) (max_fuel s) (fuel_consumption_rate s) (max_speed s)
    (navigation_mode s) (is_engine_active s) (navigation_locked s)
    (waypoints s) (current_waypoint_index s)
    h (max_history_size s).

(** Python's two-argument [min]: the first argument unless the second is
    strictly smaller. *)
Definition py_min (a b : F) : F := if b <? a then b else a.

(** ** Methods *)

Definition get_position (s : SpaceshipNavigation) : point := (x s, y s, z s).

Definition get_velocity (s : SpaceshipNavigation) : point :=
  (velocity_x s, velocity_y s, velocity_z s).

(** [_add_to_history]: append the current position, then drop the oldest
    entry when the list has grown past [max_history_size]. *)
Definition _add_to_history (s : SpaceshipNavigation) : SpaceshipNavigation :=
  let h := position_history s ++ [(x s, y s, z s)] in
  assign_position_history s
    (if Nat.ltb (max_history_size s) (length h) then tl h else h).

Definition set_position (s : SpaceshipNavigation) (nx ny nz : F)
  : bool * SpaceshipNavigation :=
  if navigation_locked s then (false, s)
  else (true, _add_to_history (assign_position s nx ny nz)).

Definition move (s : SpaceshipNavigation) (dx dy dz : F)
  : bool * SpaceshipNavigation :=
  if navigation_locked s then (false, s)
  else
    let distance := fsqrt (dx * dx + dy * dy + dz * dz) in
    if distance =? #0 then (true, s)
    else
      let fuel_needed := distance * fuel_consumption_rate s in
      if fuel_needed >? fuel_level s then (false, s)
      else
        let s1 := assign_position s (x s + dx) (y s + dy) (z s + dz) in
        let s2 := assign_fuel_level s1 (fuel_level s1 - fuel_needed) in
        (true, _add_to_history s2).

Definition set_velocity (s : SpaceshipNavigation) (vx vy vz : F)
  : bool * SpaceshipNavigation :=
  if navigation_locked s then (false, s)
  else if (fabs vx >? max_speed s) || (fabs vy >? max_speed s)
          || (fabs vz >? max_speed s)
  then (false, s)
  else (true, assign_velocity s vx vy vz).

Definition accelerate (s : SpaceshipNavigation) (ax ay az time_delta : F)
  : bool * SpaceshipNavigation :=
  if navigation_locked s || (time_delta <=? #0) then (false, s)
  else
    let new_vx := velocity_x s + ax * time_delta in
    let new_vy := velocity_y s + ay * time_delta in
    let new_vz := velocity_z s + az * time_delta in
    if (fabs new_vx >? max_speed s) || (fabs new_vy >? max_speed s)
       || (fabs new_vz >? max_speed s)
    then (false, s)
    else
      let acceleration_magnitude := fsqrt (ax * ax + ay * ay + az * az) in
      let fuel_needed := acceleration_magnitude * time_delta * #2 in
      if fuel_needed >? fuel_level s then (false, s)
      else
        let s1 := assign_velocity s new_vx new_vy new_vz in
        (true, assign_fuel_level s1 (fuel_level s1 - fuel_needed)).

Definition navigate_time_step (s : SpaceshipNavigation) (time_delta : F)
  : bool * SpaceshipNavigation :=
  if navigation_locked s || (time_delta <=? #0) then (false, s)
  else
    let dx := velocity_x s * time_delta in
    let dy := velocity_y s * time_delta in
    let dz := velocity_z s * time_delta in
    move s dx dy dz.

Definition calculate_distance_to (s : SpaceshipNavigation)
  (target_x target_y target_z : F) : F :=
  let dx := target_x - x s in
  let dy := target_y - y s in
  let dz := target_z - z s in
  fsqrt (dx * dx + dy * dy + dz * dz).

(** [navigate_to_target]: the optional [max_speed] argument is [None] when
    the caller leaves it out.  The divisions are reached only after the
    test [distance == 0] has failed. *)
Definition navigate_to_target (s : SpaceshipNavigation)
  (target_x target_y target_z : F) (requested : option F)
  : bool * SpaceshipNavigation :=
  if navigation_locked s then (false, s)
  else
    let distance := calculate_distance_to s target_x target_y target_z in
    if distance =? #0 then set_velocity s #0 #0 #0
    else
      let speed := match requested with
                   | Some v => v
                   | None => max_speed s
                   end in
      let speed := py_min speed (max_speed s) in
      let dx := target_x - x s in
      let dy := target_y - y s in
      let dz := target_z - z s in
      let vx := (dx / distance) * speed in
      let vy := (dy / distance) * speed in
      let vz := (dz / distance) * speed in
      set_velocity s vx vy vz.

Definition add_waypoint (s : SpaceshipNavigation) (wx wy wz : F)
  : bool * SpaceshipNavigation :=
  if navigation_locked s then (false, s)
  else (true, assign_waypoints s (waypoints s ++ [(wx, wy, wz)])).

Definition clear_waypoints (s : SpaceshipNavigation)
  : bool * SpaceshipNavigation :=
  if navigation_locked s then (false, s)
  else (true, assign_current_waypoint_index (assign_waypoints s []) 0).

Definition get_next_waypoint (s : SpaceshipNavigation) : option point :=
  if Nat.leb (length (waypoints s)) (current_waypoint_index s) then None
  else nth_error (waypoints s) (current_waypoint_index s).

Definition advance_to_next_waypoint (s : SpaceshipNavigation)
  : bool * SpaceshipNavigation :=
  if navigation_locked s then (false, s)
  else if Nat.leb (length (waypoints s)) (current_waypoint_index s)
  then (false, s)
  else (true, assign_current_waypoint_index s (current_waypoint_index s + 1)).

Definition navigate_waypoint_route (s : SpaceshipNavigation)
  (waypoint_threshold : F) : bool * SpaceshipNavigation :=
  match get_next_waypoint s with
  | None => (false, s)
  | Some (target_x, target_y, target_z) =>
      let distance := calculate_distance_to s target_x target_y target_z in
      if distance <=? waypoint_threshold then advance_to_next_waypoint s
      else navigate_to_target s target_x target_y target_z None
  end.

Definition refuel (s : SpaceshipNavigation) (fuel_amount : F)
  : F * SpaceshipNavigation :=
  if fuel_amount <=? #0 then (#0, s)
  else
    let available_capacity := max_fuel s - fuel_level s in
    let actual_fuel_added := py_min fuel_amount available_capacity in
    (actual_fuel_added, assign_fuel_level s (fuel_level s + actual_fuel_added)).

Definition get_fuel_percentage (s : SpaceshipNavigation) : F :=
  (fuel_level s / max_fuel s) * #100.

Definition estimate_fuel_for_distance (s : SpaceshipNavigation) (distance : F)
  : F := distance * fuel_consumption_rate s.

Definition can_reach_target (s : SpaceshipNavigation)
  (target_x target_y target_z : F) : bool :=
  let distance := calculate_distance_to s target_x target_y target_z in
  let fuel_needed := estimate_fuel_for_distance s distance in
  fuel_needed <=? fuel_level s.

Definition set_navigation_mode (s : SpaceshipNavigation) (mode : NavigationMode)
  : bool * SpaceshipNavigation :=
  if navigation_locked s && negb (NavigationMode_eqb mode EMERGENCY)
  then (false, s)
  else (true, assign_navigation_mode s mode).

Definition lock_navigation (s : SpaceshipNavigation) (locked : bool)
  : bool * SpaceshipNavigation :=
  if locked && negb (NavigationMode_eqb (navigation_mode s) MANUAL)
  then (false, s)
  else (true, assign_navigation_locked s locked).

Definition emergency_stop (s : SpaceshipNavigation)
  : bool * SpaceshipNavigation :=
  let s1 := assign_velocity s #0 #0 #0 in
  let s2 := assign_navigation_mode s1 EMERGENCY in
  (true, assign_navigation_locked s2 false).

(** The dictionary built by [get_navigation_status], one field per key. *)
Record NavigationStatus : Type := mkStatus {
  status_position : point;
  status_velocity : point;
  status_fuel_level : F;
  status_fuel_percentage : F;
  status_navigation_mode : string;
  status_navigation_locked : bool;
  status_is_engine_active : bool;
  status_waypoints_remaining : Z;
  status_total_distance_traveled : nat
}.

Definition get_navigation_status (s : SpaceshipNavigation) : NavigationStatus :=
  {| status_position := get_position s;
     status_velocity := get_velocity s;
     status_fuel_level := fuel_level s;
     status_fuel_percentage := get_fuel_percentage s;
     status_navigation_mode := NavigationMode_value (navigation_mode s);
     status_navigation_locked := navigation_locked s;
     status_is_engine_active := is_engine_active s;
     status_waypoints_remaining :=
       (Z.of_nat (length (waypoints s))
        - Z.of_nat (current_waypoint_index s))%Z;
     status_total_distance_traveled := length (position_history s) |}.

(** ** Calls

    The methods that can change the object, as data, so that a history of
    the object is a list of calls.  The remaining public methods
    ([get_position], [get_velocity], [calculate_distance_to],
    [get_next_waypoint], [get_fuel_percentage],
    [estimate_fuel_for_distance], [can_reach_target],
    [get_navigation_status], and [calculate_heading_to], which is not
    embedded: it needs [math.atan2]) assign no attribute. *)

Inductive call : Type :=
  | SetPosition (nx ny nz : F)
  | Move (dx dy dz : F)
  | SetVelocity (vx vy vz : F)
  | Accelerate (ax ay az time_delta : F)
  | NavigateTimeStep (time_delta : F)
  | NavigateToTarget (target_x target_y target_z : F) (requested : option F)
  | AddWaypoint (wx wy wz : F)
  | ClearWaypoints
  | AdvanceToNextWaypoint
  | NavigateWaypointRoute (waypoint_threshold : F)
  | Refuel (fuel_amount : F)
  | SetNavigationMode (mode : NavigationMode)
  | LockNavigation (locked : bool)
  | EmergencyStop.

(** What a call returns: a flag, or for [refuel] an amount of fuel. *)
Inductive value : Type :=
  | VBool (b : bool)
  | VFloat (f : F).

Definition flag (r : bool * SpaceshipNavigation) : value * SpaceshipNavigation :=
  (VBool (fst r), snd r).

Definition run (c : call) (s : SpaceshipNavigation)
  : value * SpaceshipNavigation :=
  match c with
  | SetPosition nx ny nz => flag (set_position s nx ny nz)
  | Move dx dy dz => flag (move s dx dy dz)
  | SetVelocity vx vy vz => flag (set_velocity s vx vy vz)
  | Accelerate ax ay az dt => flag (accelerate s ax ay az dt)
  | NavigateTimeStep dt => flag (navigate_time_step s dt)
  | NavigateToTarget tx ty tz sp => flag (navigate_to_target s tx ty tz sp)
  | AddWaypoint wx wy wz => flag (add_waypoint s wx wy wz)
  | ClearWaypoints => flag (clear_waypoints s)
  | AdvanceToNextWaypoint => flag (advance_to_next_waypoint s)
  | NavigateWaypointRoute th => flag (navigate_waypoint_route s th)
  | Refuel a => let r := refuel s a in (VFloat (fst r), snd r)
  | SetNavigationMode m => flag (set_navigation_mode s m)
  | LockNavigation b => flag (lock_navigation s b)
  | EmergencyStop => flag (emergency_stop s)
  end.

(** The object after a call, and after a list of calls made in order. *)
Definition after (c : call) (s : SpaceshipNavigation) : SpaceshipNavigation :=
  snd (run c s).

Definition run_all (cs : list call) (s : SpaceshipNavigation)
  : SpaceshipNavigation :=
  fold_left (fun st c => after c st) cs s.

(** [navigate_time_step] as the specification words it: refuse when locked
    or when the time step is not positive, otherwise be [move] along
    [velocity * dt]. *)
Definition navigate_time_step_spec (s : SpaceshipNavigation) (dt : F)
  : bool * SpaceshipNavigation :=
  if navigation_locked s then (false, s)
  else if dt <=? #0 then (false, s)
  else move s (velocity_x s * dt) (velocity_y s * dt) (velocity_z s * dt).

(** Two objects that agree on every attribute except, possibly, the lock
    and the mode. *)
Definition same_but_lock_and_mode (s1 s2 : SpaceshipNavigation) : Prop :=
  s2 = assign_navigation_locked
         (assign_navigation_mode s1 (navigation_mode s2))
         (navigation_locked s2).

(** The shape of the position history: at most [max_history_size] = 100
    entries, at least one, the newest being the current position. *)
Definition history_well_formed (s : SpaceshipNavigation) : Prop :=
  max_history_size s = 100 /\
  1 <= length (position_history s) <= 100 /\
  exists older, position_history s = older ++ [get_position s].

(** Not both locked and on AUTOPILOT. *)
Definition lock_consistent (s : SpaceshipNavigation) : Prop :=
  navigation_locked s && NavigationMode_eqb (navigation_mode s) AUTOPILOT
  = false.

End Model.

Arguments SpaceshipNavigation F : clear implicits.
Arguments call F : clear implicits.
Arguments value F : clear implicits.
Arguments point F : clear implicits.

(** ** Binary64 floating point *)

(** An integer literal as a float (exact below 2^53 in absolute value). *)
Definition float_of_Z (n : Z) : float :=
  match n with
  | Z0 => 0%float
  | Zpos _ => PrimFloat.of_uint63 (Uint63.of_Z n)
  | Zneg p => PrimFloat.opp (PrimFloat.of_uint63 (Uint63.of_Z (Zpos p)))
  end.

(** The doubles nearest to the decimal literals [1e308] and [1e-160]. *)
Definition double_1e308 : float := 0x1.1ccf385ebc8ap+1023%float.
Definition double_1e_160 : float := 0x1.67e9c127b6e74p-532%float.

#[export] Instance IEEE : Number float := {|
  of_Z := float_of_Z;
  fadd := PrimFloat.add;
  fsub := PrimFloat.sub;
  fmul := PrimFloat.mul;
  fdiv := PrimFloat.div;
  fsqrt := PrimFloat.sqrt;
  fabs := PrimFloat.abs;
  flt := PrimFloat.ltb;
  fle := PrimFloat.leb;
  feq := PrimFloat.eqb
|}.

(** ** Real numbers *)

(** The comparisons of [R], as flags. *)
Definition real_lt (a b : R) : bool := if Rlt_dec a b then true else false.
Definition real_le (a b : R) : bool := if Rle_dec a b then true else false.
Definition real_eq (a b : R) : bool := if Req_dec_T a b then true else false.

#[export] Instance Real : Number R := {|
  of_Z := IZR;
  fadd := Rplus;
  fsub := Rminus;
  fmul := Rmult;
  fdiv := Rdiv;
  fsqrt := sqrt;
  fabs := Rabs;
  flt := real_lt;
  fle := real_le;
  feq := real_eq
|}.

(** What the speed guards of [set_velocity] and [accelerate] establish on
    binary64: no component of the velocity compares greater than
    [max_speed] in magnitude. *)
Definition speed_guard_holds (s : SpaceshipNavigation float) : Prop :=
  max_speed s = float_of_Z 100 /\
  PrimFloat.ltb (max_speed s) (PrimFloat.abs (velocity_x s)) = false /\
  PrimFloat.ltb (max_speed s) (PrimFloat.abs (velocity_y s)) = false /\
  PrimFloat.ltb (max_speed s) (PrimFloat.abs (velocity_z s)) = false.

(** The two numeric invariants of the data model, over the reals. *)

Definition fuel_within_bounds (s : SpaceshipNavigation R) : Prop :=
  (0 <= fuel_consumption_rate s /\ 0 <= fuel_level s <= max_fuel s)%R.

Definition speed_within_bounds (s : SpaceshipNavigation R) : Prop :=
  (Rabs (velocity_x s) <= max_speed s /\
   Rabs (velocity_y s) <= max_speed s /\
   Rabs (velocity_z s) <= max_speed s)%R.

(** The Euclidean length that [move], [accelerate] and
    [calculate_distance_to] compute. *)
Definition norm3 (a b c : R) : R := sqrt (a * a + b * b + c * c).

(** Proof tactics: unfold the methods and split on every guard. *)

Ltac split_guards :=
  repeat match goal with
    | |- context [if ?b then _ else _] => destruct b eqn:?
    | H : context [if ?b then _ else _] |- _ => destruct b eqn:?
    end.

Ltac unfold_methods :=
  unfold after, run, flag, navigate_waypoint_route, navigate_time_step,
    navigate_to_target, set_position, move, set_velocity, accelerate,
    add_waypoint, clear_waypoints, advance_to_next_waypoint, refuel, py_min,
    set_navigation_mode, lock_navigation, emergency_stop, _add_to_history.

Ltac by_cases c s :=
  destruct c; unfold_methods;
  try match goal with
    | |- context [get_next_waypoint s] =>
        destruct (get_next_waypoint s) as [[[? ?] ?]|]
    end;
  split_guards; simpl.

(** As [unfold_methods], keeping [_add_to_history] folded. *)
Ltac unfold_callers :=
  unfold after, run, flag, navigate_waypoint_route, navigate_time_step,
    navigate_to_target, set_position, move, set_velocity, accelerate,
    add_waypoint, clear_waypoints, advance_to_next_waypoint, refuel, py_min,
    set_navigation_mode, lock_navigation, emergency_stop.

(** * Properties of the control flow

    Nothing in this part looks inside the numbers: every statement holds
    for any reading of the arithmetic, binary64 included. *)

Lemma NavigationMode_eqb_eq a b : NavigationMode_eqb a b = true <-> a = b.
Proof. destruct a, b; simpl; split; congruence. Qed.

Section ControlFlow.

Context {F : Type} {num : Number F}.
Local Open Scope py_scope.

Local Abbreviation ship := (SpaceshipNavigation F).

Lemma run_all_cons (c : call F) (cs : list (call F)) (s : ship) :
  run_all (c :: cs) s = run_all cs (after c s).
Proof. reflexivity. Qed.

(** ** Rejected calls *)

Lemma set_velocity_rejected (s s' : ship) vx vy vz :
  set_velocity s vx vy vz = (false, s') -> s' = s.
Proof. unfold set_velocity; intros H; split_guards; congruence. Qed.

Lemma move_rejected (s s' : ship) dx dy dz :
  move s dx dy dz = (false, s') -> s' = s.
Proof. unfold move; intros H; split_guards; congruence. Qed.

Lemma navigate_to_target_rejected (s s' : ship) tx ty tz sp :
  navigate_to_target s tx ty tz sp = (false, s') -> s' = s.
Proof.
  unfold navigate_to_target; intros H.
  destruct (navigation_locked s); [congruence|].
  destruct (_ =? _); eapply set_velocity_rejected; eassumption.
Qed.

Lemma advance_to_next_waypoint_rejected (s s' : ship) :
  advance_to_next_waypoint s = (false, s') -> s' = s.
Proof. unfold advance_to_next_waypoint; intros H; split_guards; congruence. Qed.

Lemma navigate_waypoint_route_rejected (s s' : ship) th :
  navigate_waypoint_route s th = (false, s') -> s' = s.
Proof.
  unfold navigate_waypoint_route; intros H.
  destruct (get_next_waypoint s) as [[[tx ty] tz]|]; [|congruence].
  destruct (_ <=? _).
  - eapply advance_to_next_waypoint_rejected; eassumption.
  - eapply navigate_to_target_rejected; eassumption.
Qed.

Lemma flag_false (r : bool * ship) (s' : ship) :
  flag r = (VBool false, s') -> r = (false, s').
Proof. destruct r as [b t]; unfold flag; simpl; congruence. Qed.

(** C3. A call that returns [False] has changed nothing: the object after
    the call is the object before it, attribute for attribute.  This covers
    [set_position], [move], [set_velocity], [accelerate],
    [navigate_time_step], [navigate_to_target], [add_waypoint],
    [clear_waypoints], [advance_to_next_waypoint], [set_navigation_mode]
    and [lock_navigation] (and [navigate_waypoint_route] as well). *)
Theorem rejected_call_changes_nothing (c : call F) (s s' : ship) :
  run c s = (VBool false, s') -> s' = s.
Proof.
  destruct c; simpl; intros H;
    try (apply flag_false in H);
    try discriminate.
  - unfold set_position in H; split_guards; congruence.
  - eapply move_rejected; eassumption.
  - eapply set_velocity_rejected; eassumption.
  - unfold accelerate in H; split_guards; congruence.
  - unfold navigate_time_step in H.
    destruct (_ || _); [congruence|].
    eapply move_rejected; eassumption.
  - eapply navigate_to_target_rejected; eassumption.
  - unfold add_waypoint in H; split_guards; congruence.
  - unfold clear_waypoints in H; split_guards; congruence.
  - eapply advance_to_next_waypoint_rejected; eassumption.
  - eapply navigate_waypoint_route_rejected; eassumption.
  - unfold set_navigation_mode in H; split_guards; congruence.
  - unfold lock_navigation in H; split_guards; congruence.
Qed.

(** ** Entering emergency mode *)

(** C1 (amended). [emergency_stop] always succeeds and leaves the mode
    EMERGENCY, the velocity (0,0,0) and the lock released.
    [set_navigation_mode] with EMERGENCY always succeeds too, lock or no
    lock, but assigns the mode and nothing else: the velocity and the lock
    stay as they were. *)
Theorem entering_emergency (s : ship) :
  (let r := emergency_stop s in
   fst r = true /\
   navigation_mode (snd r) = EMERGENCY /\
   get_velocity (snd r) = (#0, #0, #0) /\
   navigation_locked (snd r) = false)
  /\
  (let r := set_navigation_mode s EMERGENCY in
   fst r = true /\
   snd r = assign_navigation_mode s EMERGENCY /\
   navigation_mode (snd r) = EMERGENCY /\
   get_velocity (snd r) = get_velocity s /\
   navigation_locked (snd r) = navigation_locked s).
Proof.
  split.
  - simpl. repeat split.
  - unfold set_navigation_mode. simpl NavigationMode_eqb.
    rewrite andb_false_r. simpl. repeat split.
Qed.

(** ** Time steps *)

(** C7. [navigate_time_step] is the specification's two refusals followed
    by [move] along [velocity * dt]: same returned flag, same object
    afterwards. *)
Theorem navigate_time_step_refines_spec (s : ship) (dt : F) :
  navigate_time_step s dt = navigate_time_step_spec s dt.
Proof.
  unfold navigate_time_step, navigate_time_step_spec.
  destruct (navigation_locked s); simpl; reflexivity.
Qed.

Lemma navigate_time_step_refused (s : ship) (dt : F) :
  navigation_locked s = true \/ (dt <=? #0) = true ->
  navigate_time_step s dt = (false, s).
Proof.
  unfold navigate_time_step. intros [-> | ->]; [|rewrite orb_true_r]; reflexivity.
Qed.

Lemma navigate_time_step_moves (s : ship) (dt : F) :
  navigation_locked s = false -> (dt <=? #0) = false ->
  navigate_time_step s dt =
  move s (velocity_x s * dt) (velocity_y s * dt) (velocity_z s * dt).
Proof. unfold navigate_time_step. intros -> ->. reflexivity. Qed.

(** ** The engine flag *)

Lemma after_is_engine_active (c : call F) (s : ship) :
  is_engine_active (after c s) = is_engine_active s.
Proof. by_cases c s; reflexivity. Qed.

Lemma run_all_is_engine_active (cs : list (call F)) (s : ship) :
  is_engine_active (run_all cs s) = is_engine_active s.
Proof.
  revert s. induction cs as [|c cs IH]; intros s; [reflexivity|].
  rewrite run_all_cons, IH. apply after_is_engine_active.
Qed.

(** C9. Whatever calls are made on a new object, [is_engine_active] is
    still [False], and so is the entry of that name in the dictionary
    [get_navigation_status] returns. *)
Theorem engine_never_active (ix iy iz : F) (cs : list (call F)) :
  let s := run_all cs (init ix iy iz) in
  is_engine_active s = false /\
  status_is_engine_active (get_navigation_status s) = false.
Proof.
  simpl. rewrite run_all_is_engine_active. split; reflexivity.
Qed.

(** ** Which calls touch the fuel *)

Lemma after_fuel_level_frame (c : call F) (s : ship) :
  match c with
  | Move _ _ _ | NavigateTimeStep _ | Accelerate _ _ _ _ | Refuel _ => True
  | _ => fuel_level (after c s) = fuel_level s
  end.
Proof. by_cases c s; auto. Qed.

(** ** Refuelling *)

(** C10. [refuel] reads neither the lock nor the mode: on two objects that
    differ at most there it returns the same amount and leaves the same
    fuel level (and the two objects still differ at most there).  In
    particular a locked object is refuelled like an unlocked one. *)
Theorem refuel_ignores_lock_and_mode (s1 s2 : ship) (amount : F) :
  same_but_lock_and_mode s1 s2 ->
  fst (refuel s2 amount) = fst (refuel s1 amount) /\
  fuel_level (snd (refuel s2 amount)) = fuel_level (snd (refuel s1 amount)) /\
  same_but_lock_and_mode (snd (refuel s1 amount)) (snd (refuel s2 amount)).
Proof.
  unfold same_but_lock_and_mode. intros ->. unfold refuel. simpl.
  destruct (amount <=? #0); simpl; repeat split.
Qed.

(** ** The waypoint cursor *)

Lemma after_index_capped (c : call F) (s : ship) :
  current_waypoint_index s <= length (waypoints s) ->
  current_waypoint_index (after c s) <= length (waypoints (after c s)).
Proof.
  intros H. by_cases c s;
    repeat match goal with
      | E : Nat.leb _ _ = false |- _ => apply Nat.leb_gt in E
      end;
    try rewrite length_app; simpl; lia.
Qed.

Lemma run_all_index_capped (cs : list (call F)) (s : ship) :
  current_waypoint_index s <= length (waypoints s) ->
  current_waypoint_index (run_all cs s) <= length (waypoints (run_all cs s)).
Proof.
  revert s. induction cs as [|c cs IH]; intros s H; [assumption|].
  rewrite run_all_cons. apply IH, after_index_capped, H.
Qed.

Lemma after_index_step (c : call F) (s : ship) :
  match c with
  | ClearWaypoints =>
      after c s =
        (if navigation_locked s then s
         else assign_current_waypoint_index (assign_waypoints s []) 0) /\
      waypoints (after c s) =
        (if navigation_locked s then waypoints s else []) /\
      current_waypoint_index (after c s) =
        (if navigation_locked s then current_waypoint_index s else 0)
  | _ => current_waypoint_index s <= current_waypoint_index (after c s)
  end.
Proof. by_cases c s; try (repeat split; reflexivity); lia. Qed.

(** C6 (amended). Whatever calls are made on a new object, the cursor
    [current_waypoint_index] never exceeds the number of waypoints, and a
    further call never moves it backwards, with one exception:
    [clear_waypoints], when it is not refused by the lock, empties the
    waypoint list and sets the cursor back to 0, leaving every other
    attribute as it was (when it is refused nothing changes). *)
Theorem waypoint_index_progress (ix iy iz : F) (cs : list (call F)) (c : call F) :
  let s := run_all cs (init ix iy iz) in
  current_waypoint_index (after c s) <= length (waypoints (after c s)) /\
  match c with
  | ClearWaypoints =>
      after c s =
        (if navigation_locked s then s
         else assign_current_waypoint_index (assign_waypoints s []) 0) /\
      waypoints (after c s) =
        (if navigation_locked s then waypoints s else []) /\
      current_waypoint_index (after c s) =
        (if navigation_locked s then current_waypoint_index s else 0)
  | _ => current_waypoint_index s <= current_waypoint_index (after c s)
  end.
Proof.
  intros s. split.
  - apply after_index_capped. subst s. apply run_all_index_capped. simpl. lia.
  - apply after_index_step.
Qed.

End ControlFlow.

(** * Properties of the arithmetic, over the real numbers *)

Lemma real_lt_true a b : real_lt a b = true <-> (a < b)%R.
Proof. unfold real_lt. destruct (Rlt_dec a b); split; intros; try easy; lra. Qed.

Lemma real_lt_false a b : real_lt a b = false <-> (b <= a)%R.
Proof. unfold real_lt. destruct (Rlt_dec a b); split; intros; try easy; lra. Qed.

Lemma real_le_true a b : real_le a b = true <-> (a <= b)%R.
Proof. unfold real_le. destruct (Rle_dec a b); split; intros; try easy; lra. Qed.

Lemma real_le_false a b : real_le a b = false <-> (b < a)%R.
Proof. unfold real_le. destruct (Rle_dec a b); split; intros; try easy; lra. Qed.

Lemma real_eq_true a b : real_eq a b = true <-> a = b.
Proof. unfold real_eq. destruct (Req_dec_T a b); split; intros; easy. Qed.

Lemma real_eq_false a b : real_eq a b = false <-> a <> b.
Proof. unfold real_eq. destruct (Req_dec_T a b); split; intros; easy. Qed.

(** Read the operations of the interface as those of [R]. *)
Ltac real_ops :=
  cbn [flt fle feq fadd fsub fmul fdiv fsqrt fabs of_Z Real] in *.

(** Turn the recorded outcomes of the guards into (in)equalities. *)
Ltac real_guards :=
  real_ops;
  repeat match goal with
    | H : (_ || _)%bool = false |- _ =>
        apply orb_false_elim in H; destruct H
    | H : (_ || _)%bool = true |- _ =>
        apply orb_true_elim in H; destruct H
    | H : real_lt _ _ = true |- _ => apply real_lt_true in H
    | H : real_lt _ _ = false |- _ => apply real_lt_false in H
    | H : real_le _ _ = true |- _ => apply real_le_true in H
    | H : real_le _ _ = false |- _ => apply real_le_false in H
    | H : real_eq _ _ = true |- _ => apply real_eq_true in H
    | H : real_eq _ _ = false |- _ => apply real_eq_false in H
    end.

(** Forget what is under a square root, keeping that the root is not
    negative. *)
Ltac name_sqrt :=
  repeat match goal with
    | |- context [sqrt ?a] =>
        let r := fresh "r" in
        pose proof (sqrt_pos a); set (r := sqrt a) in *; clearbody r
    | H : context [sqrt ?a] |- _ =>
        let r := fresh "r" in
        pose proof (sqrt_pos a); set (r := sqrt a) in *; clearbody r
    end.

Section RealArithmetic.

Local Open Scope R_scope.

Local Abbreviation ship := (SpaceshipNavigation R).

(** ** Zero-distance moves *)

(** C8. On an unlocked object (whatever its fuel level) [move(0,0,0)]
    returns [True] and hands back the object as it was: same position,
    same fuel, same history. *)
Theorem move_zero_is_noop (s : ship) :
  navigation_locked s = false ->
  let r := move s 0 0 0 in
  fst r = true /\
  get_position (snd r) = get_position s /\
  fuel_level (snd r) = fuel_level s /\
  position_history (snd r) = position_history s /\
  snd r = s.
Proof.
  intros H. unfold move. rewrite H. real_ops.
  replace (0 * 0 + 0 * 0 + 0 * 0) with 0 by ring.
  rewrite sqrt_0.
  destruct (real_eq 0 0) eqn:E; [simpl; repeat split|].
  apply real_eq_false in E. contradiction.
Qed.

(** ** The fuel bound *)

Lemma init_fuel_within_bounds (ix iy iz : R) :
  fuel_within_bounds (init ix iy iz).
Proof. unfold fuel_within_bounds. simpl. lra. Qed.

Lemma after_fuel_within_bounds (c : call R) (s : ship) :
  fuel_within_bounds s -> fuel_within_bounds (after c s).
Proof.
  unfold fuel_within_bounds. intros H.
  by_cases c s; real_guards; try assumption; name_sqrt; nra.
Qed.

Lemma run_all_fuel_within_bounds (cs : list (call R)) (s : ship) :
  fuel_within_bounds s -> fuel_within_bounds (run_all cs s).
Proof.
  revert s. induction cs as [|c cs IH]; intros s H; [assumption|].
  rewrite run_all_cons. apply IH, after_fuel_within_bounds, H.
Qed.

(** In exact arithmetic, whatever calls are made on a new object, the fuel
    level stays between 0 and [max_fuel]; and a further call leaves the
    fuel level as it is unless it is [move], [navigate_time_step],
    [accelerate] or [refuel].  (On binary64 the bound is lost to
    overflow, as computed further down.) *)
Theorem fuel_stays_within_bounds (ix iy iz : R) (cs : list (call R)) :
  let s := run_all cs (init ix iy iz) in
  0 <= fuel_level s <= max_fuel s /\
  forall c : call R,
    match c with
    | Move _ _ _ | NavigateTimeStep _ | Accelerate _ _ _ _ | Refuel _ => True
    | _ => fuel_level (after c s) = fuel_level s
    end.
Proof.
  intros s. split.
  - apply (run_all_fuel_within_bounds cs _ (init_fuel_within_bounds ix iy iz)).
  - intros c. apply after_fuel_level_frame.
Qed.

(** ** The speed bound *)

Lemma init_speed_within_bounds (ix iy iz : R) :
  speed_within_bounds (init ix iy iz).
Proof. unfold speed_within_bounds. simpl. rewrite Rabs_R0. lra. Qed.

Lemma after_speed_within_bounds (c : call R) (s : ship) :
  speed_within_bounds s -> speed_within_bounds (after c s).
Proof.
  unfold speed_within_bounds. intros H.
  pose proof (Rabs_pos (velocity_x s)).
  by_cases c s; real_guards; try assumption; try (repeat split; assumption).
  (* what is left is [emergency_stop] *)
  rewrite Rabs_R0. destruct H as (Hx & _). repeat split; lra.
Qed.

Lemma run_all_speed_within_bounds (cs : list (call R)) (s : ship) :
  speed_within_bounds s -> speed_within_bounds (run_all cs s).
Proof.
  revert s. induction cs as [|c cs IH]; intros s H; [assumption|].
  rewrite run_all_cons. apply IH, after_speed_within_bounds, H.
Qed.

(** In exact arithmetic, whatever calls are made on a new object, each
    component of the velocity stays within [max_speed] in absolute value.
    (On binary64 the bound is lost to overflow, as computed further
    down.) *)
Theorem speed_stays_within_bounds (ix iy iz : R) (cs : list (call R)) :
  let s := run_all cs (init ix iy iz) in
  Rabs (velocity_x s) <= max_speed s /\
  Rabs (velocity_y s) <= max_speed s /\
  Rabs (velocity_z s) <= max_speed s.
Proof.
  apply (run_all_speed_within_bounds cs _ (init_speed_within_bounds ix iy iz)).
Qed.

(** ** Steering at a target *)

Lemma component_le_norm_1 (a b c : R) : Rabs a <= sqrt (a * a + b * b + c * c).
Proof.
  rewrite <- sqrt_Rsqr_abs. unfold Rsqr. apply sqrt_le_1; nra.
Qed.

Lemma component_le_norm_2 (a b c : R) : Rabs b <= sqrt (a * a + b * b + c * c).
Proof.
  rewrite <- sqrt_Rsqr_abs. unfold Rsqr. apply sqrt_le_1; nra.
Qed.

Lemma component_le_norm_3 (a b c : R) : Rabs c <= sqrt (a * a + b * b + c * c).
Proof.
  rewrite <- sqrt_Rsqr_abs. unfold Rsqr. apply sqrt_le_1; nra.
Qed.

Lemma scaled_component_bound (a d v m : R) :
  0 < d -> Rabs a <= d -> Rabs v <= m -> Rabs (a / d * v) <= m.
Proof.
  intros Hd Ha Hv.
  assert (Hq : Rabs (a / d) <= 1).
  { unfold Rdiv. rewrite Rabs_mult, Rabs_inv, (Rabs_pos_eq d) by lra.
    apply Rmult_le_reg_r with d; [assumption|].
    rewrite Rmult_assoc, Rinv_l by lra. lra. }
  rewrite Rabs_mult.
  pose proof (Rabs_pos (a / d)). pose proof (Rabs_pos v). nra.
Qed.

Lemma set_velocity_accepts (s : ship) (vx vy vz : R) :
  navigation_locked s = false ->
  Rabs vx <= max_speed s -> Rabs vy <= max_speed s -> Rabs vz <= max_speed s ->
  set_velocity s vx vy vz = (true, assign_velocity s vx vy vz).
Proof.
  intros H Hx Hy Hz. unfold set_velocity. rewrite H. real_ops.
  apply real_lt_false in Hx, Hy, Hz. rewrite Hx, Hy, Hz. reflexivity.
Qed.

Lemma py_min_clamped (v m : R) :
  0 <= m -> - m <= v -> Rabs (py_min v m) <= m.
Proof.
  intros Hm Hv. unfold py_min. real_ops.
  destruct (real_lt m v) eqn:E; real_guards; apply Rabs_le; lra.
Qed.

(** In exact arithmetic, on an unlocked object whose [max_speed] is not
    negative (it is the constant 100.0 on every object [__init__] builds),
    [navigate_to_target] returns [True] for every target, provided the
    requested speed is left out or is not below [-max_speed].  (On
    binary64 rounding can still push a component past [max_speed], as
    computed further down.) *)
Theorem navigate_to_target_accepts (s : ship) (tx ty tz : R) (requested : option R) :
  navigation_locked s = false ->
  0 <= max_speed s ->
  match requested with
  | Some v => - max_speed s <= v
  | None => True
  end ->
  fst (navigate_to_target s tx ty tz requested) = true.
Proof.
  intros H Hm Hv. unfold navigate_to_target. rewrite H.
  destruct (_ =? _)%py eqn:E.
  - rewrite set_velocity_accepts; try assumption; try reflexivity;
      real_ops; rewrite Rabs_R0; assumption.
  - unfold calculate_distance_to in *. real_guards.
    set (dx := tx - x s) in *. set (dy := ty - y s) in *.
    set (dz := tz - z s) in *.
    pose proof (sqrt_pos (dx * dx + dy * dy + dz * dz)) as Hd.
    assert (Hs : Rabs (py_min match requested with
                               | Some v => v
                               | None => max_speed s
                               end (max_speed s)) <= max_speed s).
    { apply py_min_clamped; [assumption|]. destruct requested; lra. }
    rewrite set_velocity_accepts; try assumption; try reflexivity;
      apply scaled_component_bound; try assumption; try lra.
    + apply component_le_norm_1.
    + apply component_le_norm_2.
    + apply component_le_norm_3.
Qed.

(** In exact arithmetic too a speed below [-max_speed] is refused: from
    the origin of a new object, steering at (1,0,0) with a requested speed
    of -500 builds the velocity (-500,0,0), which [set_velocity]
    refuses. *)
Lemma navigate_to_target_negative_speed_refused :
  navigation_locked (init 0 0 0) = false /\
  navigate_to_target (init 0 0 0) 1 0 0 (Some (-500)) = (false, init 0 0 0).
Proof.
  split; [reflexivity|].
  unfold navigate_to_target, calculate_distance_to. simpl navigation_locked.
  cbv iota. real_ops. simpl x. simpl y. simpl z. simpl max_speed.
  replace ((1 - 0) * (1 - 0) + (0 - 0) * (0 - 0) + (0 - 0) * (0 - 0)) with 1
    by ring.
  rewrite sqrt_1.
  assert (E1 : real_eq 1 0 = false) by (apply real_eq_false; lra).
  rewrite E1.
  assert (E2 : py_min (-500) 100 = -500).
  { unfold py_min. real_ops.
    assert (E : real_lt 100 (-500) = false) by (apply real_lt_false; lra).
    rewrite E. reflexivity. }
  real_ops. rewrite E2.
  unfold set_velocity. simpl navigation_locked. cbv iota. real_ops.
  simpl max_speed. real_ops.
  assert (E3 : real_lt 100 (Rabs ((1 - 0) / 1 * -500)) = true).
  { apply real_lt_true. replace ((1 - 0) / 1 * -500) with (-500) by field.
    rewrite Rabs_left; lra. }
  rewrite E3. reflexivity.
Qed.

End RealArithmetic.

(** * Running the methods on binary64 *)

Section Binary64.

Local Open Scope py_scope.

Local Abbreviation new_ship := (init (#0 : float) #0 #0).

(** ** The scenarios of the specification and of [test_space_ship.py] *)

Example scenario_move :
  let r := move new_ship #1 #2 #3 in
  fst r = true /\
  get_position (snd r) = (#1, #2, #3) /\
  fuel_level (snd r) = #1000 - fsqrt #14.
Proof. vm_compute. repeat split. Qed.

Example scenario_set_velocity_over_limit :
  set_velocity new_ship #999 #999 #999 = (false, new_ship).
Proof. vm_compute. reflexivity. Qed.

Example scenario_locked_move :
  let r := lock_navigation new_ship true in
  fst r = true /\
  move (snd r) #1 #2 #3 = (false, snd r) /\
  get_position (snd r) = (#0, #0, #0).
Proof. vm_compute. repeat split. Qed.

Example scenario_distance :
  calculate_distance_to new_ship #10 #10 #10 = fsqrt #300.
Proof. vm_compute. reflexivity. Qed.

Example scenario_move_without_fuel :
  move new_ship #1000 #2000 #3000 = (false, new_ship).
Proof. vm_compute. reflexivity. Qed.

Example scenario_accelerate :
  let s := after (SetVelocity #1 #1 #1) new_ship in
  let r := accelerate s #1 #2 #3 #10 in
  fst r = true /\ get_velocity (snd r) = (#11, #21, #31).
Proof. vm_compute. repeat split. Qed.

Example scenario_move_zero :
  move new_ship #0 #0 #0 = (true, new_ship).
Proof. vm_compute. reflexivity. Qed.


(** The zero move is a no-op on binary64 as well, on every unlocked
    object. *)
Lemma zero_move_binary64 (s : SpaceshipNavigation float) :
  navigation_locked s = false -> move s #0 #0 #0 = (true, s).
Proof. intros H. unfold move. rewrite H. reflexivity. Qed.

(** ** Counterexamples *)

(** C1, as stated, fails for [set_navigation_mode]: on a locked object
    moving at (1,2,3), asking for EMERGENCY succeeds and changes the mode,
    but the lock is still engaged and the velocity is still (1,2,3). *)
Lemma set_navigation_mode_emergency_keeps_lock_and_velocity :
  let s := run_all [SetVelocity #1 #2 #3; LockNavigation true] new_ship in
  let r := set_navigation_mode s EMERGENCY in
  navigation_mode s = MANUAL /\
  fst r = true /\
  navigation_mode (snd r) = EMERGENCY /\
  navigation_locked (snd r) = true /\
  get_velocity (snd r) = (#1, #2, #3) /\
  (velocity_x (snd r) =? #0) = false.
Proof. vm_compute. repeat split. Qed.

(** C6, as stated, fails: after one waypoint has been added and passed the
    cursor is 1, and [clear_waypoints] takes it back to 0. *)
Lemma clear_waypoints_rewinds_cursor :
  let s := run_all [AddWaypoint #1 #2 #3; AdvanceToNextWaypoint] new_ship in
  let s' := after ClearWaypoints s in
  current_waypoint_index s = 1 /\
  current_waypoint_index s' = 0 /\
  current_waypoint_index s' < current_waypoint_index s.
Proof. cbv zeta. split; [|split]; [reflexivity | reflexivity | simpl; lia]. Qed.

(** ** The theorems at concrete objects *)

Lemma rejected_call_changes_nothing_witness :
  let c := Move #1000 #2000 #3000 in
  run c new_ship = (VBool false, after c new_ship) /\
  after c new_ship = new_ship.
Proof.
  split.
  - vm_compute. reflexivity.
  - apply (rejected_call_changes_nothing (Move #1000 #2000 #3000) new_ship).
    vm_compute. reflexivity.
Defined.

Lemma refuel_ignores_lock_and_mode_witness :
  let s1 := after (Move #3 #4 #0) new_ship in
  let s2 := after (LockNavigation true) s1 in
  same_but_lock_and_mode s1 s2 /\
  navigation_locked s2 = true /\
  fst (refuel s2 #10) = #5 /\
  fst (refuel s2 #10) = fst (refuel s1 #10) /\
  fuel_level (snd (refuel s2 #10)) = fuel_level (snd (refuel s1 #10)) /\
  same_but_lock_and_mode (snd (refuel s1 #10)) (snd (refuel s2 #10)).
Proof.
  split; [vm_compute; reflexivity|].
  split; [vm_compute; reflexivity|].
  split; [vm_compute; reflexivity|].
  apply (refuel_ignores_lock_and_mode
           (after (Move #3 #4 #0) new_ship)
           (after (LockNavigation true) (after (Move #3 #4 #0) new_ship))
           #10).
  vm_compute. reflexivity.
Defined.

End Binary64.

Section RealInstances.

Local Open Scope R_scope.

Lemma move_zero_is_noop_witness :
  let s := assign_fuel_level (init 1 2 3) 0 in
  navigation_locked s = false /\
  fuel_level s = 0 /\
  move s 0 0 0 = (true, s).
Proof.
  split; [reflexivity|]. split; [reflexivity|].
  pose proof (move_zero_is_noop (assign_fuel_level (init 1 2 3) 0) eq_refl)
    as (H1 & _ & _ & _ & H2).
  rewrite (surjective_pairing (move _ _ _ _)). rewrite H1, H2. reflexivity.
Defined.

Lemma navigate_to_target_accepts_witness :
  navigation_locked (init 0 0 0) = false /\
  0 <= max_speed (init 0 0 0) /\
  - max_speed (init 0 0 0) <= 50 /\
  fst (navigate_to_target (init 0 0 0) 3 4 0 (Some 50)) = true.
Proof.
  split; [reflexivity|].
  split; [simpl; lra|].
  split; [simpl; lra|].
  apply (navigate_to_target_accepts (init 0 0 0) 3 4 0 (Some 50)).
  - reflexivity.
  - simpl. lra.
  - simpl. lra.
Defined.

End RealInstances.

(** * Further properties of the control flow *)

Section Bookkeeping.

Context {F : Type} {num : Number F}.
Local Open Scope py_scope.

Local Abbreviation ship := (SpaceshipNavigation F).

(** ** The position history *)

Lemma tl_app_nonempty (A : Type) (h : list A) (a b : A) :
  tl ((h ++ [a]) ++ [b]) = tl (h ++ [a]) ++ [b].
Proof. destruct h; reflexivity. Qed.

Lemma add_to_history_length (s : ship) (n : nat) :
  max_history_size s = n ->
  1 <= length (position_history s) <= n ->
  1 <= length (position_history (_add_to_history s)) <= n.
Proof.
  intros <- H. unfold _add_to_history. simpl.
  destruct (Nat.ltb _ _) eqn:E.
  - rewrite length_tl, length_app. simpl. lia.
  - apply Nat.ltb_ge in E. rewrite length_app in *. simpl in *. lia.
Qed.

Lemma add_to_history_last (s : ship) (older : list (point F)) (p : point F) :
  position_history s = older ++ [p] ->
  exists older', position_history (_add_to_history s) = older' ++ [get_position s].
Proof.
  intros H. unfold _add_to_history, get_position. simpl.
  destruct (Nat.ltb _ _).
  - rewrite H, tl_app_nonempty. eexists. reflexivity.
  - eexists. reflexivity.
Qed.

Lemma after_history_well_formed (c : call F) (s : ship) :
  history_well_formed s -> history_well_formed (after c s).
Proof.
  unfold history_well_formed. intros (Hm & Hl & older & Ho).
  destruct c; unfold_callers;
    try match goal with
      | |- context [get_next_waypoint s] =>
          destruct (get_next_waypoint s) as [[[? ?] ?]|]
      end;
    split_guards; cbn [fst snd];
    try (split; [exact Hm | split; [exact Hl | exists older; exact Ho]]).
  all: match goal with
       | |- context [_add_to_history ?t] =>
           split; [exact Hm | split];
           [ apply (add_to_history_length t 100); [exact Hm | exact Hl]
           | apply (add_to_history_last t older (get_position s)); exact Ho ]
       end.
Qed.

Lemma run_all_history_well_formed (cs : list (call F)) (s : ship) :
  history_well_formed s -> history_well_formed (run_all cs s).
Proof.
  revert s. induction cs as [|c cs IH]; intros s H; [assumption|].
  rewrite run_all_cons. apply IH, after_history_well_formed, H.
Qed.

Lemma init_history_well_formed (ix iy iz : F) :
  history_well_formed (init ix iy iz).
Proof.
  unfold history_well_formed. simpl. repeat split; try lia.
  exists []. reflexivity.
Qed.

(** X1. Whatever calls are made on a new object, the position history
    holds at least one and at most 100 entries, so the entry
    [total_distance_traveled] of [get_navigation_status], which is the
    length of that history, never exceeds 100. *)
Theorem history_stays_bounded (ix iy iz : F) (cs : list (call F)) :
  let s := run_all cs (init ix iy iz) in
  1 <= length (position_history s) <= 100 /\
  1 <= status_total_distance_traveled (get_navigation_status s) <= 100.
Proof.
  intros s.
  destruct (run_all_history_well_formed cs _ (init_history_well_formed ix iy iz))
    as (_ & H & _).
  split; exact H.
Qed.

(** X2. Whatever calls are made on a new object, the newest entry of the
    position history is the current position. *)
Theorem history_ends_at_position (ix iy iz : F) (cs : list (call F)) :
  let s := run_all cs (init ix iy iz) in
  exists older, position_history s = older ++ [get_position s].
Proof.
  intros s.
  destruct (run_all_history_well_formed cs _ (init_history_well_formed ix iy iz))
    as (_ & _ & H).
  exact H.
Qed.

(** X27. The history is a queue of at most 100 positions: whatever calls
    were made on a new object, if it is unlocked then [set_position]
    appends the new position, after dropping the oldest entry when 100 are
    already held. *)
Theorem history_is_fifo (ix iy iz : F) (cs : list (call F)) (nx ny nz : F) :
  let s := run_all cs (init ix iy iz) in
  navigation_locked s = false ->
  position_history (snd (set_position s nx ny nz)) =
  (if Nat.eqb (length (position_history s)) 100
   then tl (position_history s)
   else position_history s) ++ [(nx, ny, nz)].
Proof.
  intros s H.
  destruct (run_all_history_well_formed cs _ (init_history_well_formed ix iy iz))
    as (Hm & Hl & older & Ho).
  fold s in Hm, Hl, Ho.
  unfold set_position, _add_to_history. rewrite H. simpl.
  rewrite Hm, length_app. simpl.
  destruct (Nat.eqb _ 100) eqn:E.
  - apply Nat.eqb_eq in E. rewrite E. simpl Nat.ltb. cbv iota.
    rewrite Ho. apply tl_app_nonempty.
  - apply Nat.eqb_neq in E.
    replace (Nat.ltb _ _) with false; [reflexivity|].
    symmetry. apply Nat.ltb_ge. lia.
Qed.

(** ** The lock *)

(** X3. While the lock is engaged, every call is refused and changes
    nothing, except [refuel], [lock_navigation], [emergency_stop] and
    [set_navigation_mode] with EMERGENCY. *)
Theorem locked_calls_refused (c : call F) (s : ship) :
  navigation_locked s = true ->
  match c with
  | Refuel _ | LockNavigation _ | EmergencyStop
  | SetNavigationMode EMERGENCY => True
  | _ => run c s = (VBool false, s)
  end.
Proof.
  intros H.
  destruct c as [| | | | | | | | | | |m| |]; try exact I;
    try destruct m; try exact I;
    unfold_callers; rewrite ?H; try reflexivity.
  destruct (get_next_waypoint s) as [[[tx ty] tz]|]; [|reflexivity].
  destruct (_ <=? _); rewrite ?H; reflexivity.
Qed.

Lemma after_lock_consistent (c : call F) (s : ship) :
  lock_consistent s -> lock_consistent (after c s).
Proof.
  unfold lock_consistent. intros H.
  by_cases c s; try assumption; try reflexivity;
    repeat match goal with
      | m : NavigationMode |- _ => destruct m
      | b : bool |- _ => destruct b
      end;
    destruct (navigation_locked s), (navigation_mode s);
    simpl in *; congruence.
Qed.

Lemma run_all_lock_consistent (cs : list (call F)) (s : ship) :
  lock_consistent s -> lock_consistent (run_all cs s).
Proof.
  revert s. induction cs as [|c cs IH]; intros s H; [assumption|].
  rewrite run_all_cons. apply IH, after_lock_consistent, H.
Qed.

(** X4. Whatever calls are made on a new object, it is never locked while
    on AUTOPILOT: the lock is engaged in MANUAL mode only, and a locked
    object can leave MANUAL for EMERGENCY only. *)
Theorem never_locked_on_autopilot (ix iy iz : F) (cs : list (call F)) :
  let s := run_all cs (init ix iy iz) in
  navigation_locked s && NavigationMode_eqb (navigation_mode s) AUTOPILOT
  = false.
Proof. apply (run_all_lock_consistent cs (init ix iy iz)). reflexivity. Qed.

(** X10. After [emergency_stop] the lock cannot be engaged:
    [lock_navigation(True)] is refused and changes nothing.  Setting the
    mode back to MANUAL then succeeds, and after it the lock can be
    engaged. *)
Theorem no_lock_after_emergency_stop (s : ship) :
  let s1 := snd (emergency_stop s) in
  let s2 := snd (set_navigation_mode s1 MANUAL) in
  lock_navigation s1 true = (false, s1) /\
  fst (set_navigation_mode s1 MANUAL) = true /\
  fst (lock_navigation s2 true) = true /\
  navigation_locked (snd (lock_navigation s2 true)) = true.
Proof. repeat split. Qed.

(** ** What each call leaves alone *)

Lemma after_constants (c : call F) (s : ship) :
  max_fuel (after c s) = max_fuel s /\
  fuel_consumption_rate (after c s) = fuel_consumption_rate s /\
  max_speed (after c s) = max_speed s /\
  max_history_size (after c s) = max_history_size s.
Proof. by_cases c s; repeat split. Qed.

Lemma run_all_constants (cs : list (call F)) (s : ship) :
  max_fuel (run_all cs s) = max_fuel s /\
  fuel_consumption_rate (run_all cs s) = fuel_consumption_rate s /\
  max_speed (run_all cs s) = max_speed s /\
  max_history_size (run_all cs s) = max_history_size s.
Proof.
  revert s. induction cs as [|c cs IH]; intros s.
  - repeat split.
  - rewrite run_all_cons.
    destruct (IH (after c s)) as (-> & -> & -> & ->).
    apply after_constants.
Qed.

(** X5. Whatever calls are made on a new object, its four limits keep the
    values [__init__] gave them: [max_fuel] 1000, [fuel_consumption_rate]
    1, [max_speed] 100 and [max_history_size] 100. *)
Theorem limits_never_change (ix iy iz : F) (cs : list (call F)) :
  let s := run_all cs (init ix iy iz) in
  max_fuel s = #1000 /\
  fuel_consumption_rate s = #1 /\
  max_speed s = #100 /\
  max_history_size s = 100.
Proof. apply (run_all_constants cs (init ix iy iz)). Qed.

(** X6. Which calls can write which attribute.  The position and its
    history are left as they are by every call but [set_position], [move]
    and [navigate_time_step]; the velocity by every call but
    [set_velocity], [accelerate], [navigate_to_target],
    [navigate_waypoint_route] and [emergency_stop]; the waypoint list by
    every call but [add_waypoint] and [clear_waypoints]; the mode by every
    call but [set_navigation_mode] and [emergency_stop]; the lock by every
    call but [lock_navigation] and [emergency_stop]. *)
Theorem attribute_writers (c : call F) (s : ship) :
  match c with
  | SetPosition _ _ _ | Move _ _ _ | NavigateTimeStep _ => True
  | _ => get_position (after c s) = get_position s /\
         position_history (after c s) = position_history s
  end /\
  match c with
  | SetVelocity _ _ _ | Accelerate _ _ _ _ | NavigateToTarget _ _ _ _
  | NavigateWaypointRoute _ | EmergencyStop => True
  | _ => get_velocity (after c s) = get_velocity s
  end /\
  match c with
  | AddWaypoint _ _ _ | ClearWaypoints => True
  | _ => waypoints (after c s) = waypoints s
  end /\
  match c with
  | SetNavigationMode _ | EmergencyStop => True
  | _ => navigation_mode (after c s) = navigation_mode s
  end /\
  match c with
  | LockNavigation _ | EmergencyStop => True
  | _ => navigation_locked (after c s) = navigation_locked s
  end.
Proof. by_cases c s; repeat split; assumption. Qed.

(** ** The route *)

(** X7. Whatever calls are made on a new object, the entry
    [waypoints_remaining] of [get_navigation_status] is not negative, and
    it is 0 exactly when [get_next_waypoint] returns [None]. *)
Theorem waypoints_remaining_counts (ix iy iz : F) (cs : list (call F)) :
  let s := run_all cs (init ix iy iz) in
  (0 <= status_waypoints_remaining (get_navigation_status s))%Z /\
  (get_next_waypoint s = None <->
   status_waypoints_remaining (get_navigation_status s) = 0%Z).
Proof.
  intros s.
  assert (H : current_waypoint_index s <= length (waypoints s)).
  { subst s. apply run_all_index_capped. simpl. lia. }
  unfold get_next_waypoint. simpl. split; [lia|].
  destruct (Nat.leb _ _) eqn:E.
  - apply Nat.leb_le in E. split; [lia | reflexivity].
  - apply Nat.leb_gt in E. split.
    + intros N. apply nth_error_None in N. lia.
    + lia.
Qed.

(** X8. [add_waypoint] adds at the far end of the route: on an unlocked
    object whose cursor is within the route, the next waypoint stays what
    it was, and when there was none left it is the waypoint just added. *)
Theorem add_waypoint_keeps_order (s : ship) (wx wy wz : F) :
  navigation_locked s = false ->
  current_waypoint_index s <= length (waypoints s) ->
  fst (add_waypoint s wx wy wz) = true /\
  get_next_waypoint (snd (add_waypoint s wx wy wz)) =
  match get_next_waypoint s with
  | Some p => Some p
  | None => Some (wx, wy, wz)
  end.
Proof.
  intros H Hi. unfold add_waypoint, get_next_waypoint. rewrite H. simpl.
  split; [reflexivity|].
  rewrite length_app. simpl.
  destruct (Nat.leb (length (waypoints s)) _) eqn:E.
  - apply Nat.leb_le in E.
    assert (Ei : current_waypoint_index s = length (waypoints s)) by lia.
    rewrite Ei.
    replace (Nat.leb _ _) with false by (symmetry; apply Nat.leb_gt; lia).
    rewrite nth_error_app2, Nat.sub_diag by lia. reflexivity.
  - apply Nat.leb_gt in E.
    replace (Nat.leb _ _) with false by (symmetry; apply Nat.leb_gt; lia).
    rewrite nth_error_app1 by assumption.
    destruct (nth_error _ _) eqn:N; [reflexivity|].
    apply nth_error_None in N. lia.
Qed.

Lemma advance_step (s : ship) :
  navigation_locked s = false ->
  current_waypoint_index s <= length (waypoints s) ->
  let s' := after AdvanceToNextWaypoint s in
  navigation_locked s' = false /\
  waypoints s' = waypoints s /\
  current_waypoint_index s' =
  Nat.min (current_waypoint_index s + 1) (length (waypoints s)).
Proof.
  intros H Hi. unfold after, run, flag, advance_to_next_waypoint. rewrite H.
  destruct (Nat.leb _ _) eqn:E; simpl.
  - apply Nat.leb_le in E. repeat split; [assumption | lia].
  - apply Nat.leb_gt in E. repeat split; [assumption | lia].
Qed.

(** X9. On an unlocked object whose cursor is within the route, [k] calls
    of [advance_to_next_waypoint] move the cursor forward by [k], but not
    past the end of the route, and leave the waypoints as they are. *)
Theorem advance_walks_the_route (s : ship) (k : nat) :
  navigation_locked s = false ->
  current_waypoint_index s <= length (waypoints s) ->
  let s' := run_all (repeat AdvanceToNextWaypoint k) s in
  current_waypoint_index s' =
    Nat.min (current_waypoint_index s + k) (length (waypoints s)) /\
  waypoints s' = waypoints s.
Proof.
  revert s. induction k as [|k IH]; intros s H Hi; simpl repeat.
  - simpl. split; [lia | reflexivity].
  - rewrite run_all_cons.
    destruct (advance_step s H Hi) as (H' & Hw & Hc).
    destruct (IH (after AdvanceToNextWaypoint s) H') as (E1 & E2).
    + rewrite Hw, Hc. lia.
    + cbv zeta. rewrite E1, E2, Hw, Hc. split; [lia | reflexivity].
Qed.

End Bookkeeping.

(** * Further properties of the arithmetic, over the real numbers *)

Section Journeys.

Local Open Scope R_scope.

Local Abbreviation ship := (SpaceshipNavigation R).

(** ** Outcomes of [move] *)

Lemma norm3_pos (a b c : R) : 0 <= norm3 a b c.
Proof. apply sqrt_pos. Qed.

Lemma norm3_zero (a b c : R) : norm3 a b c = 0 <-> a = 0 /\ b = 0 /\ c = 0.
Proof.
  unfold norm3. split.
  - intros H. apply sqrt_eq_0 in H; [|nra]. repeat split; nra.
  - intros (-> & -> & ->).
    replace (0 * 0 + 0 * 0 + 0 * 0) with 0 by ring. apply sqrt_0.
Qed.

Lemma move_stays (s : ship) (dx dy dz : R) :
  navigation_locked s = false -> norm3 dx dy dz = 0 ->
  move s dx dy dz = (true, s).
Proof.
  intros H Hd. unfold move. rewrite H. real_ops.
  fold (norm3 dx dy dz). rewrite Hd.
  replace (real_eq 0 0) with true by (symmetry; apply real_eq_true; reflexivity).
  reflexivity.
Qed.

Lemma move_goes (s : ship) (dx dy dz : R) :
  navigation_locked s = false -> norm3 dx dy dz <> 0 ->
  norm3 dx dy dz * fuel_consumption_rate s <= fuel_level s ->
  move s dx dy dz =
  (true, _add_to_history
           (assign_fuel_level
              (assign_position s (x s + dx) (y s + dy) (z s + dz))
              (fuel_level s - norm3 dx dy dz * fuel_consumption_rate s))).
Proof.
  intros H Hd Hf. unfold move. rewrite H. real_ops.
  fold (norm3 dx dy dz).
  replace (real_eq (norm3 dx dy dz) 0) with false
    by (symmetry; apply real_eq_false; assumption).
  replace (real_lt (fuel_level s) _) with false
    by (symmetry; apply real_lt_false; assumption).
  reflexivity.
Qed.

Lemma move_short_of_fuel (s : ship) (dx dy dz : R) :
  navigation_locked s = false -> norm3 dx dy dz <> 0 ->
  fuel_level s < norm3 dx dy dz * fuel_consumption_rate s ->
  move s dx dy dz = (false, s).
Proof.
  intros H Hd Hf. unfold move. rewrite H. real_ops.
  fold (norm3 dx dy dz).
  replace (real_eq (norm3 dx dy dz) 0) with false
    by (symmetry; apply real_eq_false; assumption).
  replace (real_lt (fuel_level s) _) with true
    by (symmetry; apply real_lt_true; assumption).
  reflexivity.
Qed.

(** ** Distances *)


(** ** Reaching a target *)

(** X13. On an unlocked object whose fuel level is not negative,
    [can_reach_target] tells exactly whether [move] by the displacement to
    that target is accepted. *)
Theorem can_reach_target_predicts_move (s : ship) (tx ty tz : R) :
  navigation_locked s = false ->
  0 <= fuel_level s ->
  fst (move s (tx - x s) (ty - y s) (tz - z s)) = can_reach_target s tx ty tz.
Proof.
  intros H Hf. unfold can_reach_target, estimate_fuel_for_distance.
  change (calculate_distance_to s tx ty tz)
    with (norm3 (tx - x s) (ty - y s) (tz - z s)).
  set (d := norm3 (tx - x s) (ty - y s) (tz - z s)). real_ops.
  destruct (Req_dec_T d 0) as [E|E].
  - rewrite move_stays by assumption. fold d. rewrite E. simpl.
    symmetry. apply real_le_true. lra.
  - destruct (Rle_dec (d * fuel_consumption_rate s) (fuel_level s)) as [L|L].
    + rewrite move_goes by assumption. simpl.
      symmetry. apply real_le_true. assumption.
    + rewrite move_short_of_fuel by (fold d; try assumption; lra). simpl.
      symmetry. apply real_le_false. lra.
Qed.

(** ** Time steps *)

(** X18. On an unlocked object at rest, a time step of positive length is
    accepted and changes nothing, whatever the fuel level. *)
Theorem time_step_at_rest (s : ship) (dt : R) :
  navigation_locked s = false ->
  get_velocity s = (0, 0, 0) ->
  0 < dt ->
  navigate_time_step s dt = (true, s).
Proof.
  intros H Hv Hdt. unfold get_velocity in Hv. injection Hv as Hx Hy Hz.
  rewrite navigate_time_step_moves.
  - real_ops. rewrite Hx, Hy, Hz. apply move_stays; [assumption|].
    apply norm3_zero. repeat split; ring.
  - assumption.
  - real_ops. apply real_le_false. assumption.
Qed.

(** ** Refuelling *)

Lemma py_min_Rmin (a b : R) : py_min a b = Rmin a b.
Proof.
  unfold py_min, Rmin. real_ops.
  destruct (real_lt b a) eqn:E; real_guards; destruct (Rle_dec a b); lra.
Qed.

Lemma refuel_result (s : ship) (amount : R) :
  0 < amount ->
  refuel s amount =
  (Rmin amount (max_fuel s - fuel_level s),
   assign_fuel_level s
     (fuel_level s + Rmin amount (max_fuel s - fuel_level s))).
Proof.
  intros Ha. unfold refuel.
  replace (amount <=? #0)%py with false
    by (symmetry; real_ops; apply real_le_false; assumption).
  rewrite py_min_Rmin. reflexivity.
Qed.

Lemma refuel_nothing (s : ship) (amount : R) :
  amount <= 0 -> refuel s amount = (0, s).
Proof.
  intros Ha. unfold refuel.
  replace (amount <=? #0)%py with true
    by (symmetry; real_ops; apply real_le_true; assumption).
  reflexivity.
Qed.

(** X11. A refuel by at least the free capacity of the tank returns that
    free capacity and leaves the tank exactly full; any further refuel
    then returns 0 and leaves it full. *)
Theorem refuel_saturates (s : ship) (amount more : R) :
  0 < amount ->
  max_fuel s - fuel_level s <= amount ->
  let r := refuel s amount in
  fst r = max_fuel s - fuel_level s /\
  fuel_level (snd r) = max_fuel s /\
  fst (refuel (snd r) more) = 0 /\
  fuel_level (snd (refuel (snd r) more)) = max_fuel s.
Proof.
  intros Ha Hc. rewrite refuel_result by assumption. cbv zeta. simpl.
  rewrite Rmin_right by assumption.
  split; [reflexivity|]. split; [lra|].
  destruct (Rle_dec more 0) as [L|L].
  - rewrite refuel_nothing by assumption. simpl. split; lra.
  - rewrite refuel_result by lra. simpl.
    rewrite Rmin_right by lra. split; lra.
Qed.

(** ** Steering *)



End Journeys.

(** * Not-a-number on binary64 *)

Section NotANumber.

Local Open Scope py_scope.

Lemma ltb_nan_r (m : float) : PrimFloat.ltb m nan = false.
Proof.
  rewrite ltb_spec. change (Prim2SF nan) with S754_nan.
  unfold SFltb, SFcompare. destruct (Prim2SF m); reflexivity.
Qed.

Lemma leb_nan_l (m : float) : PrimFloat.leb nan m = false.
Proof.
  rewrite leb_spec. change (Prim2SF nan) with S754_nan. reflexivity.
Qed.

Lemma mul_nan_l (r : float) : PrimFloat.mul nan r = nan.
Proof.
  apply Prim2SF_inj. rewrite mul_spec.
  change (Prim2SF nan) with S754_nan. reflexivity.
Qed.

Lemma add_nan_r (a : float) : PrimFloat.add a nan = nan.
Proof.
  apply Prim2SF_inj. rewrite add_spec.
  change (Prim2SF nan) with S754_nan.
  destruct (Prim2SF a); reflexivity.
Qed.

Lemma sub_nan_r (a : float) : PrimFloat.sub a nan = nan.
Proof.
  apply Prim2SF_inj. rewrite sub_spec.
  change (Prim2SF nan) with S754_nan.
  destruct (Prim2SF a); reflexivity.
Qed.

(** X23. On binary64 an unlocked object accepts a not-a-number velocity:
    no comparison with NaN holds, so the speed guard of [set_velocity]
    lets it through, and it is stored.  The stored speed is then not
    within [max_speed]. *)
Theorem nan_velocity_accepted (s : SpaceshipNavigation float) :
  navigation_locked s = false ->
  set_velocity s nan nan nan = (true, assign_velocity s nan nan nan) /\
  (fabs (velocity_x (snd (set_velocity s nan nan nan))) <=? max_speed s)
  = false.
Proof.
  intros H. unfold set_velocity. rewrite H.
  cbn [flt fle fabs IEEE].
  change (PrimFloat.abs nan) with nan.
  rewrite ltb_nan_r. simpl. split; [reflexivity|].
  change (PrimFloat.abs nan) with nan. apply leb_nan_l.
Qed.

(** X24. On binary64 an unlocked object accepts a not-a-number
    displacement: [move] returns [True] and leaves both the position and
    the fuel level not-a-number. *)
Theorem nan_move_accepted (s : SpaceshipNavigation float) :
  navigation_locked s = false ->
  let r := move s nan nan nan in
  fst r = true /\
  get_position (snd r) = (nan, nan, nan) /\
  fuel_level (snd r) = nan.
Proof.
  intros H. unfold move. rewrite H.
  cbn [flt fle feq fadd fsub fmul fsqrt of_Z IEEE].
  change (PrimFloat.sqrt _) with nan.
  change (PrimFloat.eqb nan (float_of_Z 0)) with false.
  rewrite mul_nan_l, ltb_nan_r. cbv zeta. simpl.
  rewrite !add_nan_r, sub_nan_r. repeat split.
Qed.

Lemma nan_velocity_accepted_witness :
  let s := init (#0 : float) #0 #0 in
  navigation_locked s = false /\
  fst (set_velocity s nan nan nan) = true /\
  (fabs (velocity_x (snd (set_velocity s nan nan nan))) <=? max_speed s)
  = false.
Proof.
  split; [reflexivity|].
  destruct (nan_velocity_accepted (init (#0 : float) #0 #0) eq_refl)
    as (E & L).
  split; [rewrite E; reflexivity | exact L].
Defined.

Lemma nan_move_accepted_witness :
  let s := init (#0 : float) #0 #0 in
  navigation_locked s = false /\
  fst (move s nan nan nan) = true /\
  fuel_level (snd (move s nan nan nan)) = nan.
Proof.
  split; [reflexivity|].
  destruct (nan_move_accepted (init (#0 : float) #0 #0) eq_refl)
    as (E & _ & L).
  split; assumption.
Defined.

End NotANumber.

(** * Overflow and rounding on binary64 *)

Section Overflow.

Local Open Scope py_scope.

Local Abbreviation new_ship := (init (#0 : float) #0 #0).


(** ** Steering *)

(** A target so near that the square of the displacement underflows is
    refused: the rounded distance comes out too small, and the scaled
    component 100.00055 exceeds [max_speed]. *)
Example near_target_refused_binary64 :
  navigate_to_target new_ship double_1e_160 #0 #0 None = (false, new_ship).
Proof. vm_compute. reflexivity. Qed.



(** ** The bounds *)

(** C5. The speed bound is lost with finite arguments: on a new object,
    [set_position(-1e308, 0, 0)] then [navigate_to_target(1e308, 0, 0)]
    both return [True]; the displacement overflows to infinity, the
    direction is infinity divided by infinity, and the velocity stored is
    not-a-number, for which [abs(v) <= max_speed] is false. *)
Theorem speed_bound_lost_to_overflow :
  let r1 := run (SetPosition (PrimFloat.opp double_1e308) #0 #0) new_ship in
  let r2 := run (NavigateToTarget double_1e308 #0 #0 None) (snd r1) in
  fst r1 = VBool true /\
  fst r2 = VBool true /\
  velocity_x (snd r2) = nan /\
  (fabs (velocity_x (snd r2)) <=? max_speed (snd r2)) = false.
Proof. vm_compute. repeat split. Qed.

(** C4. The fuel bound is lost with finite arguments: after the two calls
    above, [navigate_time_step(1)] returns [True] and leaves the fuel
    level not-a-number, for which neither [0 <= fuel_level] nor
    [fuel_level <= max_fuel] holds. *)
Theorem fuel_bound_lost_to_overflow :
  let s2 := run_all [SetPosition (PrimFloat.opp double_1e308) #0 #0;
                     NavigateToTarget double_1e308 #0 #0 None] new_ship in
  let r3 := run (NavigateTimeStep #1) s2 in
  fuel_level s2 = #1000 /\
  fst r3 = VBool true /\
  fuel_level (snd r3) = nan /\
  (#0 <=? fuel_level (snd r3)) = false /\
  (fuel_level (snd r3) <=? max_fuel (snd r3)) = false.
Proof. vm_compute. repeat split. Qed.

Lemma init_speed_guard_holds (ix iy iz : float) :
  speed_guard_holds (init ix iy iz).
Proof. repeat split. Qed.

Lemma after_speed_guard_holds (c : call float) (s : SpaceshipNavigation float) :
  speed_guard_holds s -> speed_guard_holds (after c s).
Proof.
  unfold speed_guard_holds. intros (Hm & Hx & Hy & Hz).
  by_cases c s; cbn [flt fle feq fabs of_Z IEEE] in *;
    repeat match goal with
      | E : (_ || _)%bool = false |- _ =>
          apply orb_false_elim in E; destruct E
      end;
    try (repeat split; assumption).
  all: rewrite Hm; repeat split.
Qed.

Lemma run_all_speed_guard_holds (cs : list (call float))
    (s : SpaceshipNavigation float) :
  speed_guard_holds s -> speed_guard_holds (run_all cs s).
Proof.
  revert s. induction cs as [|c cs IH]; intros s H; [assumption|].
  rewrite run_all_cons. apply IH, after_speed_guard_holds, H.
Qed.

(** X29. What is left of the speed bound on binary64: whatever calls are
    made on a new object, no component of the velocity compares greater
    than [max_speed] in magnitude. *)
Theorem speed_guard_invariant (ix iy iz : float) (cs : list (call float)) :
  let s := run_all cs (init ix iy iz) in
  (fabs (velocity_x s) >? max_speed s) = false /\
  (fabs (velocity_y s) >? max_speed s) = false /\
  (fabs (velocity_z s) >? max_speed s) = false.
Proof.
  intros s.
  destruct (run_all_speed_guard_holds cs _ (init_speed_guard_holds ix iy iz))
    as (_ & H).
  exact H.
Qed.

End Overflow.

(** * The further properties at concrete objects *)

Section MoreBinary64.

Local Open Scope py_scope.

Local Abbreviation new_ship := (init (#0 : float) #0 #0).

Lemma locked_calls_refused_witness :
  let s := after (LockNavigation true) new_ship in
  navigation_locked s = true /\
  run (Move #1 #2 #3) s = (VBool false, s).
Proof.
  split; [reflexivity|].
  apply (locked_calls_refused (Move #1 #2 #3)
           (after (LockNavigation true) new_ship)).
  reflexivity.
Defined.

Lemma add_waypoint_keeps_order_witness :
  let s := after (AddWaypoint #1 #2 #3) new_ship in
  navigation_locked s = false /\
  current_waypoint_index s <= length (waypoints s) /\
  get_next_waypoint (snd (add_waypoint s #4 #5 #6)) = Some (#1, #2, #3).
Proof.
  split; [reflexivity|]. split; [simpl; lia|].
  apply (add_waypoint_keeps_order (after (AddWaypoint #1 #2 #3) new_ship)
           #4 #5 #6).
  - reflexivity.
  - simpl. lia.
Defined.

Lemma advance_walks_the_route_witness :
  let s := run_all [AddWaypoint #1 #2 #3; AddWaypoint #4 #5 #6] new_ship in
  navigation_locked s = false /\
  current_waypoint_index s <= length (waypoints s) /\
  current_waypoint_index (run_all (repeat AdvanceToNextWaypoint 5) s) = 2.
Proof.
  split; [reflexivity|]. split; [simpl; lia|].
  apply (advance_walks_the_route
           (run_all [AddWaypoint #1 #2 #3; AddWaypoint #4 #5 #6] new_ship) 5).
  - reflexivity.
  - simpl. lia.
Defined.

Lemma history_is_fifo_witness :
  let s := run_all [Move #1 #2 #3] new_ship in
  navigation_locked s = false /\
  position_history (snd (set_position s #7 #8 #9)) =
  [(#0, #0, #0); (#1, #2, #3); (#7, #8, #9)].
Proof.
  assert (H : navigation_locked (run_all [Move #1 #2 #3] new_ship) = false)
    by (vm_compute; reflexivity).
  split; [exact H|]. cbv zeta.
  rewrite (history_is_fifo #0 #0 #0 [Move #1 #2 #3] #7 #8 #9 H).
  vm_compute. reflexivity.
Defined.

End MoreBinary64.

Section MoreRealInstances.

Local Open Scope R_scope.

Local Abbreviation origin := (init 0 0 0 : SpaceshipNavigation R).

Lemma can_reach_target_predicts_move_witness :
  navigation_locked origin = false /\
  0 <= fuel_level origin /\
  fst (move origin (3 - x origin) (4 - y origin) (0 - z origin))
  = can_reach_target origin 3 4 0.
Proof.
  split; [reflexivity|]. split; [simpl; lra|].
  apply (can_reach_target_predicts_move origin 3 4 0).
  - reflexivity.
  - simpl. lra.
Defined.

Lemma time_step_at_rest_witness :
  navigation_locked origin = false /\
  get_velocity origin = (0, 0, 0) /\
  0 < 1 /\
  navigate_time_step origin 1 = (true, origin).
Proof.
  split; [reflexivity|]. split; [reflexivity|]. split; [lra|].
  apply (time_step_at_rest origin 1); [reflexivity | reflexivity | lra].
Defined.

Lemma refuel_saturates_witness :
  let s := assign_fuel_level origin 990 in
  0 < 50 /\
  max_fuel s - fuel_level s <= 50 /\
  fst (refuel s 50) = max_fuel s - fuel_level s /\
  fuel_level (snd (refuel s 50)) = max_fuel s.
Proof.
  assert (H1 : 0 < 50) by lra.
  assert (H2 : max_fuel (assign_fuel_level origin 990)
               - fuel_level (assign_fuel_level origin 990) <= 50)
    by (simpl; lra).
  split; [exact H1|]. split; [exact H2|].
  pose proof (refuel_saturates (assign_fuel_level origin 990) 50 1 H1 H2)
    as (E1 & E2 & _).
  split; assumption.
Defined.


End MoreRealInstances.
